(** * Sticky notes: the note store and the view projector

    A shallow embedding of the three programs of the repository:
    - [Local]  : src/script.js, the client that keeps its notes in localStorage;
    - [Public] : src/public/script.js, the client of the REST API;
    - [Server] : src/server.js, the Express handlers over the [notes] table.
    [JS] holds the pieces of JavaScript they share: JSON values, strict
    equality, [toLowerCase], [includes], [Array.prototype.sort], dates. *)

From Stdlib Require Import ZArith String Ascii List Lia Permutation Sorted.
From stdpp Require Import base list gmap strings pretty.

#[local] Open Scope Z_scope.

(** ** JavaScript values and library functions *)

Module JS.

(** What [JSON.parse] can return. Numbers are the integers: every number the
    programs store (ids, counts) is one. *)
#[warnings="-register-all"]
Inductive Value : Type :=
| VNull
| VBool (b : bool)
| VNum (n : Z)
| VStr (s : string)
| VArr (l : list Value)
| VObj (o : gmap string Value).

(** An object: its own properties by name. A property read [o.k] is [o !! k],
    with [None] for [undefined]. *)
Abbreviation Obj := (gmap string Value).

(** [typeof v === 'object'], which holds of [null] and of arrays too. *)
Definition typeof_object (v : Value) : bool :=
  match v with
  | VNull | VArr _ | VObj _ => true
  | _ => false
  end.

Definition isNull (v : Value) : bool :=
  match v with
  | VNull => true
  | _ => false
  end.

(** [k in v] for a name [k] that is no array index: a parsed array has index
    properties and [length] only. *)
Definition has_key (k : string) (v : Value) : bool :=
  match v with
  | VObj o => bool_decide (is_Some (o !! k))
  | _ => false
  end.

(** Truthiness of a property read. *)
Definition truthy (v : option Value) : bool :=
  match v with
  | None | Some VNull => false
  | Some (VBool b) => b
  | Some (VNum n) => negb (n =? 0)
  | Some (VStr s) => negb (String.eqb s "")
  | Some (VArr _) | Some (VObj _) => true
  end.

(** [a === b] on property reads. Objects and arrays are equal only to
    themselves, and the two sides always come from two different calls of
    [JSON.parse] (the stored blob read twice, or the blob and an imported
    file), so they never are. [Set.prototype.has] compares with SameValueZero,
    which differs from [===] on NaN only, and JSON has no NaN. *)
Definition strictEq (a b : option Value) : bool :=
  match a, b with
  | None, None => true
  | Some VNull, Some VNull => true
  | Some (VBool x), Some (VBool y) => Bool.eqb x y
  | Some (VNum x), Some (VNum y) => x =? y
  | Some (VStr x), Some (VStr y) => String.eqb x y
  | _, _ => false
  end.

(** [String.prototype.toLowerCase] on the ASCII range. *)
Definition lowerChar (c : ascii) : ascii :=
  let n := nat_of_ascii c in
  if ((65 <=? n) && (n <=? 90))%nat then ascii_of_nat (n + 32) else c.

Fixpoint toLowerCase (s : string) : string :=
  match s with
  | EmptyString => EmptyString
  | String c s' => String (lowerChar c) (toLowerCase s')
  end.

(** [s.includes(t)]: [t] starts at some position of [s]. *)
Fixpoint includes (s t : string) : bool :=
  String.prefix t s ||
  match s with
  | EmptyString => false
  | String _ s' => includes s' t
  end.

(** [Array.prototype.findIndex]; [None] is [-1]. *)
Fixpoint findIndex {A : Type} (p : A -> bool) (l : list A) : option nat :=
  match l with
  | [] => None
  | x :: l' => if p x then Some 0%nat else S <$> findIndex p l'
  end.

(** [Array.prototype.sort(compareFn)]. The language fixes the result for a
    consistent [compareFn]: the permutation ordered by it in which elements
    that compare equal keep their order (the sort is stable). A stable
    insertion sort computes it: [place x l] puts [x], which stood before all of
    [l], in front of the first element it does not have to follow. *)
Section Sort.
Context {A : Type} (compareFn : A -> A -> Z).

Fixpoint place (x : A) (l : list A) : list A :=
  match l with
  | [] => [x]
  | y :: l' => if compareFn x y <=? 0 then x :: y :: l' else y :: place x l'
  end.

Definition sort (l : list A) : list A := foldr place [] l.

(** [a] may stand before [b]: the comparator does not ask for the swap. *)
Definition inOrder (a b : A) : Prop := compareFn a b <= 0.

End Sort.

(** Dates are epoch milliseconds. The local zone is a fixed offset [tz]
    (milliseconds east of UTC); a calendar date is its day number. *)
Definition msPerDay : Z := 86400000.

(** [new Date(s)] for a date-only string: midnight UTC of that day. *)
Definition utcMidnight (day : Z) : Z := day * msPerDay.

(** [new Date(s + 'T00:00:00')]: midnight of that day in the local zone. *)
Definition localMidnight (tz day : Z) : Z := day * msPerDay - tz.


(** [d.setHours(0, 0, 0, 0)]: the start of the instant's local day. *)
Definition setHours0 (tz t : Z) : Z := t - (t + tz) mod msPerDay.



(** How a call ends: with a value, or with an exception thrown. *)
Inductive Error : Type :=
| SyntaxError
| TypeError
| PlainError (message : string).

Inductive Completion (A : Type) : Type :=
| Normal (a : A)
| Throw (e : Error).

Arguments Normal {A} a.
Arguments Throw {A} e.

(** [String.prototype.trim] on the ASCII range: it drops the white space
    (tab, line feed, vertical tab, form feed, carriage return, space) at both
    ends. *)
Definition isWhiteSpace (c : ascii) : bool :=
  let n := nat_of_ascii c in
  (((9 <=? n) && (n <=? 13)) || (n =? 32))%nat.

Fixpoint trimStart (s : string) : string :=
  match s with
  | EmptyString => EmptyString
  | String c s' => if isWhiteSpace c then trimStart s' else s
  end.

Fixpoint trimEnd (s : string) : string :=
  match s with
  | EmptyString => EmptyString
  | String c s' =>
      match trimEnd s' with
      | EmptyString => if isWhiteSpace c then EmptyString else String c EmptyString
      | t => String c t
      end
  end.

Definition trim (s : string) : string := trimEnd (trimStart s).

End JS.

Import JS.

(** ** The page: what both clients keep outside the server *)

Module Browser.

(** The localStorage item under the key ['stickyNotesApp.notes'], by what
    reading it gives: no item (or the empty string), text that [JSON.parse]
    rejects, or the array of objects that [JSON.stringify] wrote. *)
Inductive Blob : Type :=
| Missing
| Unparsable
| Stored (notes : list Obj).

Record Page : Type := mkPage {
  storage : Blob;
  indicator : string;            (* savingIndicator.textContent *)
  alerts : list string;          (* every alert(...) so far, oldest first *)
  console : list string;         (* every console.error(...) so far *)
  noteIdToDelete : option Value  (* the note the modal asks about *)
}.

(** A call: it changes the page and ends normally or by throwing; what it
    changed before it threw stays changed. *)
Definition M (A : Type) : Type := Page -> Completion A * Page.

Definition ret {A : Type} (a : A) : M A := fun p => (Normal a, p).

Definition throw {A : Type} (e : Error) : M A := fun p => (Throw e, p).

Definition bind {A B : Type} (m : M A) (k : A -> M B) : M B :=
  fun p =>
    match m p with
    | (Normal a, p') => k a p'
    | (Throw e, p') => (Throw e, p')
    end.

(** [try { m } catch (error) { handler }] *)
Definition tryCatch {A : Type} (m : M A) (handler : Error -> M A) : M A :=
  fun p =>
    match m p with
    | (Normal a, p') => (Normal a, p')
    | (Throw e, p') => handler e p'
    end.

Definition alert (message : string) : M unit :=
  fun p => (Normal tt, mkPage (storage p) (indicator p) (alerts p ++ [message])
                              (console p) (noteIdToDelete p)).

Definition consoleError (message : string) : M unit :=
  fun p => (Normal tt, mkPage (storage p) (indicator p) (alerts p)
                              (console p ++ [message]) (noteIdToDelete p)).

Definition showSavingIndicator (message : string) : M unit :=
  fun p => (Normal tt, mkPage (storage p) message (alerts p) (console p)
                              (noteIdToDelete p)).

(** [localStorage.setItem(key, JSON.stringify(notes))] *)
Definition setItem (notes : list Obj) : M unit :=
  fun p => (Normal tt, mkPage (Stored notes) (indicator p) (alerts p) (console p)
                              (noteIdToDelete p)).

Definition hideConfirmModal : M unit :=
  fun p => (Normal tt, mkPage (storage p) (indicator p) (alerts p) (console p) None).

Definition showConfirmModal (noteId : Value) : M unit :=
  fun p => (Normal tt, mkPage (storage p) (indicator p) (alerts p) (console p)
                              (Some noteId)).

(** The import handlers' test of the parsed file:
    [Array.isArray(importedNotes) && importedNotes.every(note =>
       typeof note === 'object' && note !== null && 'id' in note && 'text' in note)] *)
Definition noteLike (note : Value) : bool :=
  typeof_object note && negb (isNull note) && has_key "id" note && has_key "text" note.

Definition validImport (importedNotes : Value) : bool :=
  match importedNotes with
  | VArr l => forallb noteLike l
  | _ => false
  end.

(** The elements of an array that passed [validImport], as the objects they
    are. *)
Definition objects (importedNotes : Value) : list Obj :=
  match importedNotes with
  | VArr l => omap (fun v => match v with VObj o => Some o | _ => None end) l
  | _ => []
  end.

(** The merge both import handlers compute:
    [existingNoteIds = new Set(currentNotes.map(note => note.id))],
    [newNotesToAdd = importedNotes.filter(n => !existingNoteIds.has(n.id))],
    [finalNotes = [...currentNotes, ...newNotesToAdd]]. *)
Definition setHas (ids : list (option Value)) (v : option Value) : bool :=
  existsb (fun i => strictEq i v) ids.

Definition mergeNotes (currentNotes importedNotes : list Obj) : list Obj :=
  let existingNoteIds := map (fun note : Obj => note !! "id") currentNotes in
  let newNotesToAdd :=
    List.filter (fun importedNote : Obj =>
                   negb (setHas existingNoteIds (importedNote !! "id")))
                importedNotes in
  currentNotes ++ newNotesToAdd.

(** Whether [note.text.toLowerCase()] is defined: rendering a list throws a
    TypeError at the first note whose text is not a string. *)
Definition hasText (note : Obj) : bool :=
  match note !! "text" with
  | Some (VStr _) => true
  | _ => false
  end.

End Browser.

Import Browser.

Notation "'let*' x := m 'in' k" := (bind m (fun x => k))
  (at level 10, x name, m at level 100, k at level 200, only parsing).
Notation "m ;; k" := (bind m (fun _ => k))
  (at level 100, k at level 200, right associativity, only parsing).

(** ** src/script.js: the client that keeps its notes in localStorage *)

Module Local.

(** A note as [renderAllNotes] and [renderNote] read it: the text as a string,
    [pinned] by its truthiness, [createdAt] and [dueDate] as the dates
    [new Date] makes of them, [None] where the property is missing, null or
    empty (falsy). [dueDate] is a day number. *)
Record Note : Type := mkNote {
  id : string;
  text : string;
  createdAt : option Z;
  pinned : bool;
  dueDate : option Z
}.

(** [isDateOverdue(dueDateString)], called at the instant [now]. *)
Definition isDateOverdue (tz now : Z) (dueDateString : option Z) : bool :=
  match dueDateString with
  | None => false
  | Some day =>
      let today := setHours0 tz now in
      let dueDate := localMidnight tz day in
      dueDate <? today
  end.

(** [new Date(note.createdAt || 0)] *)
Definition created (note : Note) : Z := default 0 (createdAt note).

(** [(a, b) => new Date(b.createdAt || 0) - new Date(a.createdAt || 0)] *)
Definition newestFirst (a b : Note) : Z := created b - created a.

(** [note => note.text.toLowerCase().includes(lowerCaseSearchTerm)] *)
Definition matches (lowerCaseSearchTerm : string) (note : Note) : bool :=
  includes (toLowerCase (text note)) lowerCaseSearchTerm.

(** [renderAllNotes(searchTerm)] over the notes [loadNotes()] gave: the
    notes in the order their cards are appended to the container. *)
Definition renderAllNotes (searchTerm : string) (notes : list Note) : list Note :=
  let lowerCaseSearchTerm := toLowerCase searchTerm in
  let filteredNotes := List.filter (matches lowerCaseSearchTerm) notes in
  let pinnedNotes := List.filter (fun note => pinned note) filteredNotes in
  let unpinnedNotes := List.filter (fun note => negb (pinned note)) filteredNotes in
  let pinnedNotes := sort newestFirst pinnedNotes in
  let unpinnedNotes := sort newestFirst unpinnedNotes in
  pinnedNotes ++ unpinnedNotes.

(** [loadNotes()]: [notesJSON ? JSON.parse(notesJSON) : []], with no handler
    around the parse. *)
Definition loadNotes : M (list Obj) :=
  fun p =>
    match storage p with
    | Missing => ret [] p
    | Unparsable => throw SyntaxError p
    | Stored notes => ret notes p
    end.

(** [saveNotes(notes)]; the timer that clears the indicator later is left
    out. *)
Definition saveNotes (notes : list Obj) : M unit :=
  setItem notes ;; showSavingIndicator "Saved!".

(** The call [renderAllNotes(searchInput.value)] that ends every mutation,
    seen from the store: it reads the blob again and throws where rendering
    does; the cards it builds are not part of the page state. *)
Definition rerender : M unit :=
  let* notes := loadNotes in
  if forallb hasText notes then ret tt else throw TypeError.

(** [updateNoteContent(id, updates)] *)
Definition updateNoteContent (noteId : Value) (updates : Obj) : M unit :=
  let* notes := loadNotes in
  match findIndex (fun note : Obj => strictEq (note !! "id") (Some noteId)) notes with
  | Some noteIndex =>
      saveNotes (alter (fun note : Obj => updates ∪ note) noteIndex notes) ;;
      rerender
  | None => ret tt
  end.

(** [togglePinNote(id)] *)
Definition togglePinNote (noteId : Value) : M unit :=
  let* notes := loadNotes in
  match findIndex (fun note : Obj => strictEq (note !! "id") (Some noteId)) notes with
  | Some noteIndex =>
      let currentPinnedStatus := truthy (notes !! noteIndex ≫= (fun note : Obj => note !! "pinned")) in
      updateNoteContent noteId {[ "pinned" := VBool (negb currentPinnedStatus) ]}
  | None => ret tt
  end.

(** [deleteNote(id)] *)
Definition deleteNote (noteId : Value) : M unit :=
  let* notes := loadNotes in
  let notes := List.filter (fun note : Obj => negb (strictEq (note !! "id") (Some noteId))) notes in
  saveNotes notes ;;
  hideConfirmModal ;;
  rerender.

(** [importedNotes.length] *)
Definition arrayLength (v : Value) : nat :=
  match v with
  | VArr l => length l
  | _ => 0%nat
  end.

(** [reader.onload] of the import input. [parsed] is what
    [JSON.parse(e.target.result)] gives, [None] when it throws; [mergeOption]
    is the answer to the [confirm] dialog, asked after the notes are loaded. *)
Definition importOnload (parsed : option Value) (mergeOption : bool) : M unit :=
  tryCatch
    (match parsed with
     | None => throw SyntaxError
     | Some importedNotes =>
         if negb (validImport importedNotes) then
           alert "Invalid JSON file format. Please select a valid ProNotes export file."
         else
           let* currentNotes := loadNotes in
           let finalNotes :=
             if mergeOption then mergeNotes currentNotes (objects importedNotes)
             else objects importedNotes in
           saveNotes finalNotes ;;
           rerender ;;
           alert ("Successfully imported " +:+ pretty (arrayLength importedNotes) +:+ " notes!") ;;
           showSavingIndicator "Notes Imported!"
     end)
    (fun error =>
       consoleError "Error importing notes:" ;;
       alert "Failed to import notes. Please ensure the file is a valid JSON format.").

(** The note [addNote] builds: [Date.now().toString()] is the decimal of the
    clock's milliseconds, [nowIso] is [new Date().toISOString()]. *)
Definition newNote (noteText dueDate : string) (nowMs : Z) (nowIso : string) : Obj :=
  {[ "id" := VStr (pretty nowMs);
     "text" := VStr noteText;
     "createdAt" := VStr nowIso;
     "pinned" := VBool false;
     "dueDate" := if String.eqb dueDate "" then VNull else VStr dueDate ]}.

(** [addNote()]: [value] and [dueDate] are what the two inputs hold; that the
    inputs are cleared afterwards is left out. *)
Definition addNote (value dueDate : string) (nowMs : Z) (nowIso : string) : M unit :=
  let noteText := trim value in
  if String.eqb noteText "" then ret tt
  else
    let* notes := loadNotes in
    saveNotes (notes ++ [newNote noteText dueDate nowMs nowIso]) ;;
    rerender.

(** [toggleAddButtonState()]: the value it gives [addNoteButton.disabled]. *)
Definition addButtonDisabled (value : string) : bool := String.eqb (trim value) "".

(** The click on the dialog's delete button:
    [if (noteIdToDelete) { deleteNote(noteIdToDelete); }] *)
Definition confirmDeleteClick : M unit :=
  fun p =>
    match noteIdToDelete p with
    | Some noteId => if truthy (Some noteId) then deleteNote noteId p else ret tt p
    | None => ret tt p
    end.

(** [exportNotes()]: the value is the array in the file it makes the browser
    download (what [JSON.parse] reads back from [dataStr]), [None] when it
    downloads nothing; the file's name is left out. *)
Definition exportNotes : M (option Value) :=
  let* notes := loadNotes in
  if (length notes =? 0)%nat then
    alert "No notes to export!" ;; ret None
  else
    showSavingIndicator "Notes Exported!" ;; ret (Some (VArr (VObj <$> notes))).

End Local.

(** ** src/server.js: the REST handlers over the notes table *)

Module Server.

(** A row of [notes]: [id SERIAL PRIMARY KEY], [text TEXT NOT NULL],
    [pinned BOOLEAN DEFAULT FALSE] (it can hold NULL), [created_at], [due_date]
    (a day number) and [reminder_time] (hours and minutes). *)
Record Row : Type := mkRow {
  id : Z;
  text : string;
  pinned : option bool;
  created_at : Z;
  due_date : option Z;
  reminder_time : option (Z * Z)
}.

(** [const { text, pinned } = req.body]: a property the body does not have is
    [undefined], which the driver sends as NULL like a null. *)
Record PutBody : Type := mkPutBody {
  body_text : option string;
  body_pinned : option bool
}.

Inductive Body : Type :=
| Rows (rows : list Row)
| OneRow (row : Row)
| ErrorBody (error : string)
| NoBody.

Record Reply : Type := mkReply {
  status : Z;
  body : Body
}.

(** [SELECT * FROM notes ORDER BY created_at DESC]; SQL leaves the order of
    rows with equal [created_at] open, here they keep the table's. *)
Definition selectAll (db : list Row) : list Row :=
  sort (fun a b : Row => created_at b - created_at a) db.

(** [UPDATE notes SET text = $1, pinned = $2 WHERE id = $3 RETURNING *]: the
    rows returned and the table afterwards, or [None] when the statement
    fails, which it does when a row would get a NULL text. *)
Definition setRow (text' : string) (pinned' : option bool) (r : Row) : Row :=
  mkRow (id r) text' pinned' (created_at r) (due_date r) (reminder_time r).

Definition sqlUpdate (text' : option string) (pinned' : option bool) (noteId : Z)
    (db : list Row) : option (list Row * list Row) :=
  match List.filter (fun r => id r =? noteId) db with
  | [] => Some ([], db)
  | hit :: hits =>
      match text' with
      | None => None
      | Some t =>
          Some (map (setRow t pinned') (hit :: hits),
                map (fun r => if id r =? noteId then setRow t pinned' r else r) db)
      end
  end.

(** [DELETE FROM notes WHERE id = $1 RETURNING *] *)
Definition sqlDelete (noteId : Z) (db : list Row) : list Row * list Row :=
  (List.filter (fun r => id r =? noteId) db,
   List.filter (fun r => negb (id r =? noteId)) db).

(** [app.get('/api/notes')] *)
Definition getNotes (db : list Row) : Reply * list Row :=
  (mkReply 200 (Rows (selectAll db)), db).

(** [app.put('/api/notes/:id')]; the id of the path names an integer. *)
Definition putNote (noteId : Z) (req : PutBody) (db : list Row) : Reply * list Row :=
  match sqlUpdate (body_text req) (body_pinned req) noteId db with
  | Some (rows, db') =>
      match rows with
      | [] => (mkReply 404 (ErrorBody "Note not found"), db')
      | row :: _ => (mkReply 200 (OneRow row), db')
      end
  | None => (mkReply 500 (ErrorBody "Internal server error"), db)
  end.

(** [app.delete('/api/notes/:id')] *)
Definition deleteNote (noteId : Z) (db : list Row) : Reply * list Row :=
  let '(rows, db') := sqlDelete noteId db in
  match rows with
  | [] => (mkReply 404 (ErrorBody "Note not found"), db')
  | _ :: _ => (mkReply 204 NoBody, db')
  end.

(** [const { text, due_date, reminder_time } = req.body] *)
Record PostBody : Type := mkPostBody {
  new_text : option string;
  new_due_date : option Z;
  new_reminder_time : option (Z * Z)
}.

(** [INSERT INTO notes(text, due_date, reminder_time) VALUES($1, $2, $3)
    RETURNING *]: [serial] is the value the id's sequence hands out and [now]
    is CURRENT_TIMESTAMP; the statement fails on a NULL text and on an id the
    table already has (the primary key). *)
Definition sqlInsert (text' : option string) (due : option Z) (reminder : option (Z * Z))
    (serial now : Z) (db : list Row) : option (list Row * list Row) :=
  match text' with
  | None => None
  | Some t =>
      if existsb (fun r => id r =? serial) db then None
      else
        let row := mkRow serial t (Some false) now due reminder in
        Some ([row], db ++ [row])
  end.

(** [app.post('/api/notes')] *)
Definition postNote (req : PostBody) (serial now : Z) (db : list Row) : Reply * list Row :=
  match sqlInsert (new_text req) (new_due_date req) (new_reminder_time req) serial now db with
  | Some (row :: _, db') => (mkReply 201 (OneRow row), db')
  | Some ([], db') => (mkReply 201 NoBody, db')
  | None => (mkReply 500 (ErrorBody "Internal server error"), db)
  end.

End Server.

(** ** src/public/script.js: the client of the REST API *)

Module Public.

(** A note as the client reads it off the API's JSON: [pinned] is the
    column's boolean, dates are what [new Date] makes of them, [None] where
    the column is null. *)
Record Note : Type := mkNote {
  id : Z;
  text : string;
  pinned : bool;
  created_at : option Z;
  due_date : option Z;
  reminder_time : option (Z * Z)
}.

(** [isDateOverdue(dueDateString)], called at the instant [now]. *)
Definition isDateOverdue (tz now : Z) (dueDateString : option Z) : bool :=
  match dueDateString with
  | None => false
  | Some day =>
      let today := setHours0 tz now in
      let dueDate := localMidnight tz day in
      dueDate <? today
  end.


(** [new Date(note.created_at || 0)] *)
Definition created (note : Note) : Z := default 0 (created_at note).

(** The comparator of [filteredNotes.sort(...)]. *)
Definition compareNotes (a b : Note) : Z :=
  if negb (Bool.eqb (pinned a) (pinned b)) then
    if pinned a then -1 else 1
  else
    let dateA := utcMidnight <$> due_date a in
    let dateB := utcMidnight <$> due_date b in
    match dateA, dateB with
    | Some ta, Some tb => ta - tb
    | Some _, None => -1
    | None, Some _ => 1
    | None, None => created b - created a
    end.

(** [note => note.text.toLowerCase().includes(lowerCaseSearchTerm)] *)
Definition matches (lowerCaseSearchTerm : string) (note : Note) : bool :=
  includes (toLowerCase (text note)) lowerCaseSearchTerm.

(** [renderAllNotes(searchTerm)] over the notes [fetchNotes()] gave: the
    notes in the order their cards are appended to the container. *)
Definition renderAllNotes (searchTerm : string) (allNotes : list Note) : list Note :=
  let lowerCaseSearchTerm := toLowerCase searchTerm in
  let filteredNotes := List.filter (matches lowerCaseSearchTerm) allNotes in
  sort compareNotes filteredNotes.

(** What [await fetch(...)] gives: a rejection, or a response with its status
    and what [response.json()] reads, [None] when that rejects. *)
Inductive Fetched (A : Type) : Type :=
| Rejected
| Response (status : Z) (json : option A).

Arguments Rejected {A}.
Arguments Response {A} status json.

(** [response.ok] *)
Definition ok (status : Z) : bool := (200 <=? status) && (status <=? 299).

(** [fetchNotes()] *)
Definition fetchNotes (response : Fetched (list Note)) : M (list Note) :=
  tryCatch
    (match response with
     | Rejected => throw TypeError
     | Response status json =>
         if negb (ok status) then throw (PlainError "Network response was not ok")
         else match json with
              | Some notes => ret notes
              | None => throw SyntaxError
              end
     end)
    (fun error => consoleError "Failed to fetch notes:" ;; ret []).

(** The call [await renderAllNotes(searchInput.value)] that follows a
    mutation: it fetches the list again; the cards are not page state. *)
Definition rerender (listing : Fetched (list Note)) : M unit :=
  fetchNotes listing ;; ret tt.

(** [updateNoteContent(id, updates)]: [put] is the answer to the PUT request,
    [listing] the answer to the GET that re-rendering sends. *)
Definition updateNoteContent (put : Fetched unit) (listing : Fetched (list Note)) : M unit :=
  tryCatch
    (match put with
     | Rejected => throw TypeError
     | Response status _ =>
         if negb (ok status) then throw (PlainError "Failed to update note")
         else showSavingIndicator "Note updated!" ;; rerender listing
     end)
    (fun error =>
       consoleError "Error updating note:" ;;
       alert "Failed to update note. Please try again.").

(** [deleteNote(id)]: [del] is the answer to the DELETE request. *)
Definition deleteNote (del : Fetched unit) (listing : Fetched (list Note)) : M unit :=
  tryCatch
    (match del with
     | Rejected => throw TypeError
     | Response status _ =>
         if negb (ok status) then throw (PlainError "Failed to delete note")
         else showSavingIndicator "Note deleted!" ;; rerender listing
     end)
    (fun error =>
       consoleError "Error deleting note:" ;;
       alert "Failed to delete note. Please try again.") ;;
  hideConfirmModal.

(** How the client sees a reply of the server. *)
Definition answer (r : Server.Reply) : Fetched unit :=
  Response (Server.status r) (Some tt).

(** [JSON.parse(localStorage.getItem('stickyNotesApp.notes') || '[]')] *)
Definition storedNotes : M (list Obj) :=
  fun p =>
    match storage p with
    | Missing => ret [] p
    | Unparsable => throw SyntaxError p
    | Stored notes => ret notes p
    end.

(** [importedNotes.length] *)
Definition arrayLength (v : Value) : nat :=
  match v with
  | VArr l => length l
  | _ => 0%nat
  end.

(** [reader.onload] of the import input, which still works on localStorage.
    [parsed] is what [JSON.parse(e.target.result)] gives, [None] when it
    throws; [mergeOption] is the answer to the [confirm] dialog; [listing] is the
    answer to the GET that re-rendering sends. *)
Definition importOnload (parsed : option Value) (mergeOption : bool)
    (listing : Fetched (list Note)) : M unit :=
  tryCatch
    (match parsed with
     | None => throw SyntaxError
     | Some importedNotes =>
         if negb (validImport importedNotes) then
           alert "Invalid JSON file format. Please select a valid ProNotes export file."
         else
           let* finalNotes :=
             (if mergeOption then
                let* currentNotes := storedNotes in
                ret (mergeNotes currentNotes (objects importedNotes))
              else ret (objects importedNotes)) in
           setItem finalNotes ;;
           rerender listing ;;
           alert ("Successfully imported " +:+ pretty (arrayLength importedNotes) +:+ " notes!") ;;
           showSavingIndicator "Notes Imported!"
     end)
    (fun error =>
       consoleError "Error importing notes:" ;;
       alert "Failed to import notes. Please ensure the file is a valid JSON format.").

(** What the server reads of the bodies the client sends:
    [{ text: newText }] from the card's blur handler and
    [{ pinned: !currentPinnedStatus }] from [togglePinNote]. *)
Definition textUpdate (newText : string) : Server.PutBody :=
  Server.mkPutBody (Some newText) None.

Definition pinUpdate (currentPinnedStatus : bool) : Server.PutBody :=
  Server.mkPutBody None (Some (negb currentPinnedStatus)).

(** [togglePinNote(id, currentPinnedStatus)]: it awaits
    [updateNoteContent(id, { pinned: !currentPinnedStatus })]. *)
Definition togglePinNote (put : Fetched unit) (listing : Fetched (list Note)) : M unit :=
  updateNoteContent put listing.


(** [addNote()]: [value] is what the text input holds, [post] the answer to
    the POST request, which is sent only when the trimmed text is not empty. *)
Definition addNote (value : string) (post : Fetched unit) (listing : Fetched (list Note))
    : M unit :=
  let noteText := trim value in
  if String.eqb noteText "" then ret tt
  else
    tryCatch
      (match post with
       | Rejected => throw TypeError
       | Response status _ =>
           if negb (ok status) then throw (PlainError "Failed to add note")
           else showSavingIndicator "Note added!" ;; rerender listing
       end)
      (fun error =>
         consoleError "Error adding note:" ;;
         alert "Failed to add note. Please try again.").

(** [exportNotes()], which still reads localStorage; the value is the array
    in the downloaded file, [None] when nothing is downloaded. *)
Definition exportNotes : M (option Value) :=
  let* notes := storedNotes in
  if (length notes =? 0)%nat then
    alert "No notes to export!" ;; ret None
  else
    showSavingIndicator "Notes Exported!" ;; ret (Some (VArr (VObj <$> notes))).

End Public.

(** ** The specification's vocabulary *)

Module Spec.










(** A snapshot an import must accept: a sequence of objects that each have an
    [id] and a [text]. [None] is a file that is no JSON at all. *)
Definition noteObject (v : Value) : Prop :=
  exists o : Obj, v = VObj o /\ is_Some (o !! "id") /\ is_Some (o !! "text").

Definition validSnapshot (parsed : option Value) : Prop :=
  exists l : list Value, parsed = Some (VArr l) /\ Forall noteObject l.

(** [v.id] of an array element, and whether a note of [current] has that id. *)
Definition idOf (v : Value) : option Value :=
  match v with
  | VObj o => o !! "id"
  | _ => None
  end.

Definition idExists (current : list Obj) (v : Value) : bool :=
  existsb (fun note : Obj => strictEq (note !! "id") (idOf v)) current.

(** The snapshot notes whose id is not already present, in snapshot order. *)
Fixpoint newcomers (current : list Obj) (snapshot : list Value) : list Value :=
  match snapshot with
  | [] => []
  | v :: rest =>
      if idExists current v then newcomers current rest
      else v :: newcomers current rest
  end.


(** A call that was refused: the store and the indicator are as before and
    one more alert is on the screen. *)
Definition rejected (before : Page) (r : Completion unit * Page) : Prop :=
  storage r.2 = storage before /\
  indicator r.2 = indicator before /\
  exists message, alerts r.2 = alerts before ++ [message].







(** A string of white space only, and a string with none at either end. *)
Fixpoint blank (s : string) : Prop :=
  match s with
  | EmptyString => True
  | String c s' => isWhiteSpace c = true /\ blank s'
  end.


(** Every stored note is an object with an [id] and a [text]. *)
Definition wellFormed (notes : list Obj) : Prop :=
  Forall (fun note : Obj => is_Some (note !! "id") /\ is_Some (note !! "text")) notes.

(** The note's id is a string, a number, a boolean or null: a value that
    [===] compares by content. *)
Definition primitiveId (note : Obj) : Prop :=
  match note !! "id" with
  | Some (VArr _) | Some (VObj _) | None => False
  | Some _ => True
  end.

(** A store that can be read and holds well-formed notes only. *)
Definition healthy (p : Page) : Prop :=
  match storage p with
  | Missing => True
  | Unparsable => False
  | Stored notes => wellFormed notes
  end.




End Spec.

Import Spec.

(** ** Sample data *)

Module Sample.

(** The scenario of section 8: one dated note, one pinned, one plain. *)
Definition dated : Public.Note := Public.mkNote 1 "pay rent" false (Some 1000) (Some 20098) None.
Definition pinnedOne : Public.Note := Public.mkNote 2 "Call Bob" true (Some 2000) None None.
Definition plain : Public.Note := Public.mkNote 3 "read" false (Some 3000) None None.


(** The same notes as the local client holds them. *)
Definition datedL : Local.Note := Local.mkNote "1" "pay rent" (Some 1000) false (Some 20098).
Definition pinnedL : Local.Note := Local.mkNote "2" "Call Bob" (Some 2000) true None.
Definition plainL : Local.Note := Local.mkNote "3" "read" (Some 3000) false None.


(** A store with one pinned note, and one whose blob is damaged. *)
Definition stored5 : Obj :=
  {[ "id" := VStr "5"; "text" := VStr "old"; "pinned" := VBool true ]}.
Definition page5 : Page := mkPage (Stored [stored5]) "" [] [] None.
Definition corruptPage : Page := mkPage Unparsable "" [] [] None.

(** The same note as a row of the server's table. *)
Definition row1 : Server.Row := Server.mkRow 1 "old" (Some true) 1000 None None.

(** A snapshot with a note whose id the store has and one it has not. *)
Definition hi5 : Obj := {[ "id" := VStr "5"; "text" := VStr "hi" ]}.
Definition new6 : Obj := {[ "id" := VStr "6"; "text" := VStr "new" ]}.
Definition snapshot56 : list Value := [VObj hi5; VObj new6].

(** A file whose one entry has no text. *)
Definition noText : option Value := Some (VArr [VObj {[ "id" := VNum 5 ]}]).

(** The dialog is open on the stored note. *)
Definition pending5 : Page := mkPage (Stored [stored5]) "" [] [] (Some (VStr "5")).

End Sample.

(** * Facts about the JavaScript functions *)

Section SortFacts.
Context {A : Type} (cmp : A -> A -> Z).

Lemma place_Permutation (x : A) (l : list A) : Permutation (place cmp x l) (x :: l).
Proof.
  induction l as [|y l IH]; simpl; [reflexivity|].
  destruct (cmp x y <=? 0); [reflexivity|].
  rewrite IH. apply perm_swap.
Qed.

Lemma sort_Permutation (l : list A) : Permutation (sort cmp l) l.
Proof.
  induction l as [|x l IH]; simpl; [reflexivity|].
  rewrite place_Permutation. now constructor.
Qed.




(** For a consistent comparator the result is in order. *)
Hypothesis cmp_total : forall a b, cmp a b <= 0 \/ cmp b a <= 0.
Hypothesis cmp_trans : forall a b c, cmp a b <= 0 -> cmp b c <= 0 -> cmp a c <= 0.

Lemma place_sorted (x : A) (l : list A) :
  StronglySorted (inOrder cmp) l -> StronglySorted (inOrder cmp) (place cmp x l).
Proof.
  induction 1 as [|y l Hs IH Hy]; simpl.
  - repeat constructor.
  - destruct (cmp x y <=? 0) eqn:Hxy.
    + apply Z.leb_le in Hxy. constructor; [now constructor|].
      constructor; [exact Hxy|].
      eapply Forall_impl; [exact Hy|]. intros z Hz. eapply cmp_trans; eauto.
    + apply Z.leb_gt in Hxy. constructor; [exact IH|].
      eapply Permutation_Forall; [symmetry; apply place_Permutation|].
      constructor; [|exact Hy].
      destruct (cmp_total x y); [lia|assumption].
Qed.

Lemma sort_sorted (l : list A) : StronglySorted (inOrder cmp) (sort cmp l).
Proof.
  induction l as [|x l IH]; simpl; [constructor|]. now apply place_sorted.
Qed.

End SortFacts.

Section OrderFacts.
Context {A : Type} (R : A -> A -> Prop).




Lemma StronglySorted_weaken (R' : A -> A -> Prop) (l : list A) :
  StronglySorted R l ->
  (forall x y, In x l -> In y l -> R x y -> R' x y) ->
  StronglySorted R' l.
Proof.
  induction 1 as [|x l Hs IH Hx]; intros Himp; constructor.
  - apply IH. intros; apply Himp; simpl; auto.
  - rewrite Forall_forall in Hx |- *. intros y Hy.
    apply Himp; simpl; auto.
    right. now apply list_elem_of_In.
Qed.



End OrderFacts.

Section StringFacts.












End StringFacts.

(** * The view projector *)

Section ViewFacts.














Lemma filter_all_In {A : Type} (f : A -> bool) (l : list A) :
  (forall x, In x l -> f x = true) -> List.filter f l = l.
Proof.
  induction l as [|x l IH]; intros H; simpl; [reflexivity|].
  rewrite (H x) by (simpl; auto). rewrite IH; [reflexivity|].
  intros; apply H; simpl; auto.
Qed.


End ViewFacts.




Section DueDateFacts.






End DueDateFacts.




(** The ordering scenario of section 8: the server-backed client shows the
    pinned note, then the dated one, then the plain one; the local client
    shows the plain note, which is newer, before the dated one. *)
Example scenario_order :
  map Public.id (Public.renderAllNotes EmptyString
                   [Sample.dated; Sample.pinnedOne; Sample.plain]) = [2; 1; 3] /\
  map Local.id (Local.renderAllNotes EmptyString
                  [Sample.datedL; Sample.pinnedL; Sample.plainL]) = ["2"; "3"; "1"]%string.
Proof. split; reflexivity. Qed.

(** The search ignores case: the term [bob] finds the note [Call Bob]. *)
Example scenario_search :
  Public.renderAllNotes "bob" [Sample.dated; Sample.pinnedOne; Sample.plain] =
    [Sample.pinnedOne].
Proof. reflexivity. Qed.

(** * Display states *)

Section DateFacts.




End DateFacts.


(** * The note store *)

Section StoreFacts.

Lemma findIndex_Some {A : Type} (f : A -> bool) (l : list A) (i : nat) :
  findIndex f l = Some i ->
  exists x, l !! i = Some x /\ f x = true /\
            forall j y, (j < i)%nat -> l !! j = Some y -> f y = false.
Proof.
  revert i. induction l as [|x l IH]; intros i H; simpl in H; [discriminate|].
  destruct (f x) eqn:Hx.
  - injection H as <-. exists x. repeat split; [exact Hx|]. intros j y Hj. lia.
  - destruct (findIndex f l) as [k|] eqn:Hk; [|discriminate].
    injection H as <-. destruct (IH k eq_refl) as (z & Hz & Hfz & Hbefore).
    exists z. repeat split; [exact Hz|exact Hfz|].
    intros [|j] y Hj Hy; simpl in Hy; [congruence|].
    apply (Hbefore j); [lia|exact Hy].
Qed.

Lemma findIndex_None {A : Type} (f : A -> bool) (l : list A) :
  (forall x, In x l -> f x = false) -> findIndex f l = None.
Proof.
  induction l as [|x l IH]; intros H; simpl; [reflexivity|].
  rewrite (H x) by (simpl; auto). rewrite IH; [reflexivity|].
  intros; apply H; simpl; auto.
Qed.

(** X1. The local [updateNoteContent(id, updates)] merges the updates into
    the first stored note with that id, field by field: every field the
    updates name gets their value, every other field of the note keeps its
    own, and every other note, also a later one with the same id, stays as it
    was. *)
Lemma Local_update_merges (p : Page) (notes : list Obj) (noteId : Value)
    (updates : Obj) (i : nat) :
  Local.loadNotes p = (Normal notes, p) ->
  findIndex (fun note : Obj => strictEq (note !! "id") (Some noteId)) notes = Some i ->
  exists note notes',
    notes !! i = Some note /\
    storage (Local.updateNoteContent noteId updates p).2 = Stored notes' /\
    length notes' = length notes /\
    (forall j, j <> i -> notes' !! j = notes !! j) /\
    exists merged,
      notes' !! i = Some merged /\
      (forall k v, updates !! k = Some v -> merged !! k = Some v) /\
      (forall k, updates !! k = None -> merged !! k = note !! k).
Proof.
  intros Hload Hfind.
  destruct (findIndex_Some _ _ _ Hfind) as (note & Hi & _ & _).
  exists note, (alter (fun n : Obj => updates ∪ n) i notes).
  split; [exact Hi|]. split; [|split; [|split]].
  - unfold Local.updateNoteContent, bind. rewrite Hload, Hfind.
    unfold Local.saveNotes, Local.rerender, bind, setItem, showSavingIndicator,
      Local.loadNotes. simpl.
    now destruct (forallb hasText _).
  - apply length_alter.
  - intros j Hj. now apply list_lookup_alter_ne.
  - exists (updates ∪ note). split; [|split].
    + rewrite list_lookup_alter_eq, Hi. reflexivity.
    + intros k v Hk. now apply lookup_union_Some_l.
    + intros k Hk. now apply lookup_union_r.
Qed.

End StoreFacts.

(** C2 fails on the server. The client sends only the field it changes, and
    [PUT /api/notes/:id] writes both columns from the body: a request that
    carries the text alone stores NULL in [pinned], and one that carries
    [pinned] alone asks for a NULL text, which the table refuses. *)
Theorem put_overwrites_the_field_not_sent :
  Server.putNote 1 (Server.mkPutBody (Some "x") None) [Sample.row1] =
    (Server.mkReply 200 (Server.OneRow (Server.mkRow 1 "x" None 1000 None None)),
     [Server.mkRow 1 "x" None 1000 None None]) /\
  Server.putNote 1 (Server.mkPutBody None (Some false)) [Sample.row1] =
    (Server.mkReply 500 (Server.ErrorBody "Internal server error"), [Sample.row1]).
Proof. split; reflexivity. Qed.

(** C5 fails in the local client. A blob that [JSON.parse] rejects makes
    [loadNotes] throw, and so does the rendering that called it. *)
Theorem corrupt_blob_throws :
  Local.loadNotes Sample.corruptPage = (Throw SyntaxError, Sample.corruptPage) /\
  Local.rerender Sample.corruptPage = (Throw SyntaxError, Sample.corruptPage).
Proof. split; reflexivity. Qed.

(** The server-backed client does catch: whatever the request comes to,
    [fetchNotes] ends normally and leaves the store and the alerts alone; when
    the request is rejected or the response is not ok it gives the empty list
    and writes the failure to the console. *)
Lemma fetchNotes_never_throws (response : Public.Fetched (list Public.Note)) (p : Page) :
  exists notes p',
    Public.fetchNotes response p = (Normal notes, p') /\
    storage p' = storage p /\ alerts p' = alerts p.
Proof.
  unfold Public.fetchNotes, tryCatch.
  destruct response as [|status [notes|]]; simpl; [eauto| |];
    destruct (Public.ok status); simpl; eauto.
Qed.

Lemma fetchNotes_unreachable (status : Z) (json : option (list Public.Note)) (p : Page) :
  Public.ok status = false ->
  let logged := mkPage (storage p) (indicator p) (alerts p)
                       (console p ++ ["Failed to fetch notes:"]) (noteIdToDelete p) in
  Public.fetchNotes Public.Rejected p = (Normal [], logged) /\
  Public.fetchNotes (Public.Response status json) p = (Normal [], logged).
Proof.
  intros Hok. unfold Public.fetchNotes, tryCatch. simpl. now rewrite Hok.
Qed.

Section ImportFacts.

Lemma noteLike_noteObject (v : Value) : noteLike v = true <-> noteObject v.
Proof.
  unfold noteLike, noteObject. destruct v as [| | | | |o]; simpl;
    try (split; [discriminate|intros (o' & [=] & _)]).
  rewrite andb_true_iff, !bool_decide_eq_true. split.
  - intros [Hid Htext]. now exists o.
  - intros (o' & [= <-] & Hid & Htext). now split.
Qed.

Lemma validImport_validSnapshot (v : Value) :
  validImport v = true <-> validSnapshot (Some v).
Proof.
  unfold validSnapshot. destruct v as [| | | |l|]; simpl;
    try (split; [discriminate|intros (l' & [=] & _)]).
  rewrite forallb_forall. split.
  - intros H. exists l. split; [reflexivity|].
    apply Forall_forall. intros x Hx%list_elem_of_In. now apply noteLike_noteObject, H.
  - intros (l' & [= <-] & H) x Hx. apply noteLike_noteObject.
    rewrite Forall_forall in H. now apply H, list_elem_of_In.
Qed.

(** The objects of a valid array are its elements. *)
Lemma objects_valid (l : list Value) :
  Forall noteObject l -> VObj <$> objects (VArr l) = l.
Proof.
  induction 1 as [|v l (o & -> & _) _ IH]; [reflexivity|].
  change (VObj o :: (VObj <$> objects (VArr l)) = VObj o :: l). now rewrite IH.
Qed.

Lemma setHas_idExists (currentNotes : list Obj) (o : Obj) :
  setHas (map (fun note : Obj => note !! "id") currentNotes) (o !! "id") =
  idExists currentNotes (VObj o).
Proof.
  unfold setHas, idExists. simpl.
  induction currentNotes as [|n ns IH]; simpl; [reflexivity|]. now rewrite IH.
Qed.

(** The merge of the handlers appends the newcomers. *)
Lemma mergeNotes_newcomers (currentNotes : list Obj) (l : list Value) :
  Forall noteObject l ->
  exists added,
    mergeNotes currentNotes (objects (VArr l)) = currentNotes ++ added /\
    VObj <$> added = newcomers currentNotes l.
Proof.
  intros Hl. unfold mergeNotes. eexists. split; [reflexivity|].
  induction Hl as [|v l (o & -> & _) _ IH]; [reflexivity|].
  change (objects (VArr (VObj o :: l))) with (o :: objects (VArr l)).
  cbn [List.filter newcomers]. rewrite setHas_idExists.
  destruct (idExists currentNotes (VObj o)); cbn [negb]; [exact IH|].
  rewrite fmap_cons. now rewrite IH.
Qed.

Lemma newcomers_In (current : list Obj) (l : list Value) (v : Value) :
  In v (newcomers current l) <-> In v l /\ idExists current v = false.
Proof.
  induction l as [|x l IH]; simpl; [tauto|].
  destruct (idExists current x) eqn:Hx; simpl; rewrite IH.
  - split; [tauto|]. intros [[->|H] Hv]; [congruence|tauto].
  - split; [intros [->|H]; tauto|tauto].
Qed.

(** What merge-mode import leaves in the store, in both clients. *)
Lemma Local_import_merge_storage (p : Page) (currentNotes : list Obj) (v : Value) :
  Local.loadNotes p = (Normal currentNotes, p) ->
  validImport v = true ->
  storage (Local.importOnload (Some v) true p).2 =
    Stored (mergeNotes currentNotes (objects v)).
Proof.
  intros Hload Hvalid.
  unfold Local.importOnload, tryCatch, bind. rewrite Hvalid. simpl.
  rewrite Hload. unfold Local.saveNotes, Local.rerender, bind. simpl.
  now destruct (forallb hasText _).
Qed.

Lemma Public_import_merge_storage (p : Page) (currentNotes : list Obj) (v : Value)
    (listing : Public.Fetched (list Public.Note)) :
  Public.storedNotes p = (Normal currentNotes, p) ->
  validImport v = true ->
  storage (Public.importOnload (Some v) true listing p).2 =
    Stored (mergeNotes currentNotes (objects v)).
Proof.
  intros Hload Hvalid.
  unfold Public.importOnload, tryCatch, bind. rewrite Hvalid. simpl.
  rewrite Hload. simpl.
  unfold Public.rerender, Public.fetchNotes, tryCatch, bind.
  destruct listing as [|status [notes|]]; simpl; [reflexivity| |];
    now destruct (Public.ok status).
Qed.

End ImportFacts.

(** C6. For every import payload that is not an array of objects that each
    have an [id] and a [text], both import handlers refuse it: an alert tells
    the user, and the stored collection is exactly what it was. *)
Theorem invalid_import_is_rejected :
  forall (parsed : option Value) (mergeOption : bool)
         (listing : Public.Fetched (list Public.Note)) (p : Page),
    ~ validSnapshot parsed ->
    rejected p (Local.importOnload parsed mergeOption p) /\
    rejected p (Public.importOnload parsed mergeOption listing p).
Proof.
  intros parsed mergeOption listing p Hinvalid. unfold rejected.
  destruct parsed as [v|].
  - destruct (validImport v) eqn:Hv; [now apply validImport_validSnapshot in Hv|].
    unfold Local.importOnload, Public.importOnload, tryCatch. rewrite Hv. simpl.
    repeat split; eauto.
  - unfold Local.importOnload, Public.importOnload, tryCatch. simpl.
    repeat split; eauto.
Qed.

Lemma invalid_import_is_rejected_witness :
  rejected Sample.page5 (Local.importOnload Sample.noText true Sample.page5) /\
  rejected Sample.page5
    (Public.importOnload Sample.noText true Public.Rejected Sample.page5).
Proof.
  apply (invalid_import_is_rejected Sample.noText true Public.Rejected Sample.page5).
  intros (l & [= <-] & H). apply Forall_cons in H as [(o & Ho & _ & [x Htext]) _].
  injection Ho as <-. vm_compute in Htext. discriminate.
Defined.

(** C3. For every current collection and every valid snapshot, merge-mode
    import keeps every note that was there, at its place and as it was, also
    when the snapshot has a note with the same id and other content; and it
    adds exactly the snapshot notes whose id no note of the collection has. *)
Theorem merge_import_keeps_existing_notes :
  forall (p : Page) (current : list Obj) (snapshot : list Value)
         (listing : Public.Fetched (list Public.Note)),
    Local.loadNotes p = (Normal current, p) ->
    validSnapshot (Some (VArr snapshot)) ->
    exists final : list Obj,
      storage (Local.importOnload (Some (VArr snapshot)) true p).2 = Stored final /\
      storage (Public.importOnload (Some (VArr snapshot)) true listing p).2 = Stored final /\
      (forall i note, current !! i = Some note -> final !! i = Some note) /\
      (forall note, In note final <->
                    In note current \/
                    (In (VObj note) snapshot /\ idExists current (VObj note) = false)).
Proof.
  intros p current snapshot listing Hload Hvalid.
  pose proof (proj2 (validImport_validSnapshot _) Hvalid) as Hv.
  destruct Hvalid as (l & [= <-] & Hl).
  destruct (mergeNotes_newcomers current snapshot Hl) as (added & Hmerge & Hadded).
  exists (current ++ added). split; [|split; [|split]].
  - rewrite <- Hmerge. now apply Local_import_merge_storage.
  - rewrite <- Hmerge. now apply Public_import_merge_storage.
  - intros i note Hi. now apply lookup_app_l_Some.
  - intros note. rewrite in_app_iff, <- newcomers_In, <- Hadded.
    rewrite <- !list_elem_of_In, list_elem_of_fmap. split.
    + intros [H|H]; [now left|right]. now exists note.
    + intros [H|(o & [= <-] & H)]; [now left|now right].
Qed.

Lemma merge_import_keeps_existing_notes_witness :
  exists final : list Obj,
    storage (Local.importOnload (Some (VArr Sample.snapshot56)) true Sample.page5).2 =
      Stored final /\
    storage (Public.importOnload (Some (VArr Sample.snapshot56)) true Public.Rejected
                                 Sample.page5).2 = Stored final /\
    (forall i note, [Sample.stored5] !! i = Some note -> final !! i = Some note) /\
    (forall note, In note final <->
                  In note [Sample.stored5] \/
                  (In (VObj note) Sample.snapshot56 /\
                   idExists [Sample.stored5] (VObj note) = false)).
Proof.
  apply (merge_import_keeps_existing_notes Sample.page5 [Sample.stored5]
           Sample.snapshot56 Public.Rejected).
  - reflexivity.
  - exists Sample.snapshot56. split; [reflexivity|].
    repeat constructor; eexists; (split; [reflexivity|]); split; vm_compute; eauto.
Defined.

(** C10. For every current list and every valid snapshot, merge-mode import
    stores the current list, in its order, followed by the snapshot notes
    whose id is not yet present, in the snapshot's order. *)
Theorem merge_import_appends_in_order :
  forall (p : Page) (current : list Obj) (snapshot : list Value)
         (listing : Public.Fetched (list Public.Note)),
    Local.loadNotes p = (Normal current, p) ->
    validSnapshot (Some (VArr snapshot)) ->
    exists added : list Obj,
      VObj <$> added = newcomers current snapshot /\
      storage (Local.importOnload (Some (VArr snapshot)) true p).2 =
        Stored (current ++ added) /\
      storage (Public.importOnload (Some (VArr snapshot)) true listing p).2 =
        Stored (current ++ added).
Proof.
  intros p current snapshot listing Hload Hvalid.
  pose proof (proj2 (validImport_validSnapshot _) Hvalid) as Hv.
  destruct Hvalid as (l & [= <-] & Hl).
  destruct (mergeNotes_newcomers current snapshot Hl) as (added & Hmerge & Hadded).
  exists added. split; [exact Hadded|]. rewrite <- Hmerge. split.
  - now apply Local_import_merge_storage.
  - now apply Public_import_merge_storage.
Qed.

Lemma merge_import_appends_in_order_witness :
  exists added : list Obj,
    VObj <$> added = newcomers [Sample.stored5] Sample.snapshot56 /\
    storage (Local.importOnload (Some (VArr Sample.snapshot56)) true Sample.page5).2 =
      Stored ([Sample.stored5] ++ added) /\
    storage (Public.importOnload (Some (VArr Sample.snapshot56)) true Public.Rejected
                                 Sample.page5).2 = Stored ([Sample.stored5] ++ added).
Proof.
  apply (merge_import_appends_in_order Sample.page5 [Sample.stored5]
           Sample.snapshot56 Public.Rejected).
  - reflexivity.
  - exists Sample.snapshot56. split; [reflexivity|].
    repeat constructor; eexists; (split; [reflexivity|]); split; vm_compute; eauto.
Defined.

(** * Unknown ids *)

Section UnknownIdFacts.

Lemma filter_id_none (noteId : Z) (db : list Server.Row) :
  ~ In noteId (map Server.id db) ->
  List.filter (fun r => Server.id r =? noteId) db = [].
Proof.
  induction db as [|r db IH]; simpl; intros H; [reflexivity|].
  destruct (Z.eqb_spec (Server.id r) noteId) as [E|_]; [tauto|]. apply IH. tauto.
Qed.




Lemma Server_deleteNote_table (noteId : Z) (db : list Server.Row) :
  (Server.deleteNote noteId db).2 = (Server.sqlDelete noteId db).2.
Proof.
  unfold Server.deleteNote. destruct (Server.sqlDelete noteId db) as [[|r rows] db'];
    reflexivity.
Qed.

Lemma Local_delete_filters (p : Page) (notes : list Obj) (noteId : Value) :
  Local.loadNotes p = (Normal notes, p) ->
  Local.deleteNote noteId p =
    (let kept := List.filter
                   (fun note : Obj => negb (strictEq (note !! "id") (Some noteId)))
                   notes in
     (if forallb hasText kept then Normal tt else Throw TypeError,
      mkPage (Stored kept) "Saved!" (alerts p) (console p) None)).
Proof.
  intros Hload. unfold Local.deleteNote, bind. rewrite Hload.
  unfold Local.saveNotes, Local.rerender, bind. simpl.
  now destruct (forallb hasText _).
Qed.

End UnknownIdFacts.




(** The merge scenario of section 8: importing a note with the id of a stored
    one in merge mode leaves the stored note as it is; replace mode stores
    the snapshot alone. *)
Example scenario_merge :
  storage (Local.importOnload (Some (VArr [VObj Sample.hi5])) true Sample.page5).2 =
    Stored [Sample.stored5] /\
  storage (Local.importOnload (Some (VArr [VObj Sample.hi5])) false Sample.page5).2 =
    Stored [Sample.hi5].
Proof. split; reflexivity. Qed.

(** * The rest of the local client *)

Section TrimFacts.





Lemma trimStart_blank (s : string) : trimStart s = EmptyString <-> blank s.
Proof.
  induction s as [|a s IH]; simpl; [tauto|].
  destruct (isWhiteSpace a); [rewrite IH; tauto|]. split; [discriminate|now intros [? _]].
Qed.








End TrimFacts.

Section LocalStoreFacts.

Lemma loadNotes_Stored (p : Page) (notes : list Obj) :
  storage p = Stored notes -> Local.loadNotes p = (Normal notes, p).
Proof. intros H. unfold Local.loadNotes. now rewrite H. Qed.

(** What a page can hold when [loadNotes] reads [notes] off it. *)
Lemma loadNotes_Normal (p : Page) (notes : list Obj) :
  Local.loadNotes p = (Normal notes, p) ->
  storage p = Stored notes \/ (storage p = Missing /\ notes = []).
Proof.
  unfold Local.loadNotes. destruct (storage p); simpl; intros [= <-]; auto.
Qed.

Lemma saveNotes_rerender (notes : list Obj) (p : Page) :
  (Local.saveNotes notes ;; Local.rerender) p =
    (if forallb hasText notes then Normal tt else Throw TypeError,
     mkPage (Stored notes) "Saved!" (alerts p) (console p) (noteIdToDelete p)).
Proof.
  unfold Local.saveNotes, Local.rerender, bind. simpl.
  now destruct (forallb hasText notes).
Qed.

Lemma Local_update_storage (p : Page) (notes : list Obj) (noteId : Value)
    (updates : Obj) (i : nat) :
  Local.loadNotes p = (Normal notes, p) ->
  findIndex (fun note : Obj => strictEq (note !! "id") (Some noteId)) notes = Some i ->
  Local.updateNoteContent noteId updates p =
    (let notes' := alter (fun note : Obj => updates ∪ note) i notes in
     (if forallb hasText notes' then Normal tt else Throw TypeError,
      mkPage (Stored notes') "Saved!" (alerts p) (console p) (noteIdToDelete p))).
Proof.
  intros Hload Hfind. unfold Local.updateNoteContent.
  unfold bind at 1. rewrite Hload, Hfind. apply saveNotes_rerender.
Qed.

(** [findIndex] finds the same place after an element is replaced by one
    the test judges alike. *)
Lemma findIndex_insert {A : Type} (f : A -> bool) (l : list A) (i : nat) (x y : A) :
  l !! i = Some y -> f x = f y ->
  findIndex f (<[i := x]> l) = findIndex f l.
Proof.
  intros Hi Hf. revert i Hi. induction l as [|z l IH]; intros i Hi; [reflexivity|].
  destruct i as [|i]; simpl in Hi.
  - injection Hi as ->. cbn. now rewrite Hf.
  - cbn. destruct (f z); [reflexivity|]. f_equal. exact (IH i Hi).
Qed.

End LocalStoreFacts.

Lemma Local_update_merges_witness :
  exists note notes',
    [Sample.stored5] !! 0%nat = Some note /\
    storage (Local.updateNoteContent (VStr "5") {[ "text" := VStr "x" ]} Sample.page5).2 =
      Stored notes' /\
    length notes' = length [Sample.stored5] /\
    (forall j, j <> 0%nat -> notes' !! j = [Sample.stored5] !! j) /\
    exists merged,
      notes' !! 0%nat = Some merged /\
      (forall k v, ({[ "text" := VStr "x" ]} : Obj) !! k = Some v -> merged !! k = Some v) /\
      (forall k, ({[ "text" := VStr "x" ]} : Obj) !! k = None ->
                 merged !! k = note !! k).
Proof.
  apply (Local_update_merges Sample.page5 [Sample.stored5] (VStr "5")
           {[ "text" := VStr "x" ]} 0%nat); reflexivity.
Defined.

(** X2. The local [togglePinNote(id)] sets the [pinned] field of the first
    note with that id to the boolean opposite of its truthiness and changes
    nothing else; a second toggle sets it to the boolean of the original
    truthiness, so two toggles restore a boolean [pinned] and turn any other
    value into its boolean. *)
Theorem toggle_pin_twice :
  forall (p : Page) (notes : list Obj) (noteId : Value) (i : nat) (note : Obj),
    Local.loadNotes p = (Normal notes, p) ->
    findIndex (fun n : Obj => strictEq (n !! "id") (Some noteId)) notes = Some i ->
    notes !! i = Some note ->
    storage (Local.togglePinNote noteId p).2 =
      Stored (<[i := <["pinned" := VBool (negb (truthy (note !! "pinned")))]> note]> notes) /\
    storage (Local.togglePinNote noteId (Local.togglePinNote noteId p).2).2 =
      Stored (<[i := <["pinned" := VBool (truthy (note !! "pinned"))]> note]> notes).
Proof.
  intros p notes noteId i note Hload Hfind Hi.
  assert (Hlt : (i < length notes)%nat) by (eapply lookup_lt_Some; eauto).
  assert (Hstep : forall (q : Page) (ns : list Obj) (n : Obj),
             Local.loadNotes q = (Normal ns, q) ->
             findIndex (fun n : Obj => strictEq (n !! "id") (Some noteId)) ns = Some i ->
             ns !! i = Some n ->
             storage (Local.togglePinNote noteId q).2 =
               Stored (<[i := <["pinned" := VBool (negb (truthy (n !! "pinned")))]> n]> ns)).
  { intros q ns n Hq Hf Hn. unfold Local.togglePinNote.
    unfold bind at 1. rewrite Hq, Hf, Hn. simpl.
    rewrite (Local_update_storage q ns noteId _ i Hq Hf). cbv zeta. simpl.
    f_equal. apply list_eq. intros j. destruct (decide (j = i)) as [->|Hne].
    - rewrite list_lookup_alter_eq, Hn, list_lookup_insert_eq
        by (eapply lookup_lt_Some; eauto).
      simpl. now rewrite insert_union_singleton_l.
    - now rewrite list_lookup_alter_ne, list_lookup_insert_ne by auto. }
  pose proof (Hstep p notes note Hload Hfind Hi) as H1. split; [exact H1|].
  set (note1 := <["pinned" := VBool (negb (truthy (note !! "pinned")))]> note) in *.
  set (notes1 := <[i := note1]> notes) in *.
  rewrite (Hstep _ notes1 note1).
  - f_equal. unfold notes1. rewrite list_insert_insert_eq. f_equal.
    unfold note1. rewrite lookup_insert_eq, insert_insert_eq. simpl.
    now rewrite negb_involutive.
  - now apply loadNotes_Stored.
  - unfold notes1. rewrite (findIndex_insert _ notes i note1 note Hi); [exact Hfind|].
    unfold note1. now rewrite lookup_insert_ne.
  - unfold notes1. now apply list_lookup_insert_eq.
Qed.

Lemma toggle_pin_twice_witness :
  storage (Local.togglePinNote (VStr "5") Sample.page5).2 =
    Stored (<[0%nat := <["pinned" := VBool (negb (truthy (Sample.stored5 !! "pinned")))]>
                         Sample.stored5]> [Sample.stored5]) /\
  storage (Local.togglePinNote (VStr "5")
             (Local.togglePinNote (VStr "5") Sample.page5).2).2 =
    Stored (<[0%nat := <["pinned" := VBool (truthy (Sample.stored5 !! "pinned"))]>
                         Sample.stored5]> [Sample.stored5]).
Proof.
  apply (toggle_pin_twice Sample.page5 [Sample.stored5] (VStr "5") 0%nat Sample.stored5);
    reflexivity.
Defined.



Section HealthFacts.

Lemma healthy_loadNotes (p : Page) :
  healthy p -> exists notes, Local.loadNotes p = (Normal notes, p) /\ wellFormed notes.
Proof.
  unfold healthy, Local.loadNotes. destruct (storage p) as [| |notes]; intros H.
  - exists []. split; [reflexivity|constructor].
  - destruct H.
  - now exists notes.
Qed.



Lemma wellFormed_filter (f : Obj -> bool) (notes : list Obj) :
  wellFormed notes -> wellFormed (List.filter f notes).
Proof.
  unfold wellFormed. rewrite !Forall_forall.
  intros H x [Hx _]%list_elem_of_In%filter_In. now apply H, list_elem_of_In.
Qed.

Lemma wellFormed_objects (l : list Value) :
  Forall noteObject l -> wellFormed (objects (VArr l)).
Proof.
  induction 1 as [|v l (o & -> & Hid & Htext) _ IH]; [constructor|].
  change (objects (VArr (VObj o :: l))) with (o :: objects (VArr l)).
  now constructor.
Qed.

Lemma wellFormed_mergeNotes (current imported : list Obj) :
  wellFormed current -> wellFormed imported -> wellFormed (mergeNotes current imported).
Proof.
  intros Hc Hi. unfold mergeNotes. apply Forall_app. split; [exact Hc|].
  now apply wellFormed_filter.
Qed.

Lemma wellFormed_update (updates : Obj) (i : nat) (notes : list Obj) :
  wellFormed notes -> wellFormed (alter (fun note : Obj => updates ∪ note) i notes).
Proof.
  intros H. apply Forall_alter; [exact H|].
  intros note _ [Hid Htext]. split; apply lookup_union_is_Some; now right.
Qed.

Lemma objects_fmap (notes : list Obj) : objects (VArr (VObj <$> notes)) = notes.
Proof.
  induction notes as [|n notes IH]; [reflexivity|].
  change (objects (VArr (VObj <$> n :: notes)))
    with (n :: objects (VArr (VObj <$> notes))).
  now rewrite IH.
Qed.

Lemma wellFormed_noteObject (notes : list Obj) :
  wellFormed notes -> Forall noteObject (VObj <$> notes).
Proof.
  induction 1 as [|n notes [Hid Htext] _ IH]; [constructor|].
  rewrite fmap_cons. constructor; [now exists n|exact IH].
Qed.

(** The whole effect of importing a file that passes the test. *)
Lemma Local_import_outcome (p : Page) (current : list Obj) (v : Value)
    (mergeOption : bool) :
  Local.loadNotes p = (Normal current, p) ->
  validImport v = true ->
  Local.importOnload (Some v) mergeOption p =
    (let final := if mergeOption then mergeNotes current (objects v) else objects v in
     (Normal tt,
      if forallb hasText final then
        mkPage (Stored final) "Notes Imported!"
               (alerts p ++ ["Successfully imported " +:+ pretty (Local.arrayLength v)
                             +:+ " notes!"])
               (console p) (noteIdToDelete p)
      else
        mkPage (Stored final) "Saved!"
               (alerts p ++ ["Failed to import notes. Please ensure the file is a valid JSON format."])
               (console p ++ ["Error importing notes:"]) (noteIdToDelete p))).
Proof.
  intros Hload Hvalid. cbv zeta.
  unfold Local.importOnload, tryCatch. rewrite Hvalid. cbn [negb].
  unfold bind at 1. rewrite Hload.
  set (final := if mergeOption then _ else _).
  unfold Local.saveNotes, Local.rerender, bind. simpl.
  now destruct (forallb hasText final).
Qed.

Lemma Public_import_outcome (p : Page) (v : Value) (mergeOption : bool)
    (listing : Public.Fetched (list Public.Note)) (current : list Obj) :
  Public.storedNotes p = (Normal current, p) \/ mergeOption = false ->
  validImport v = true ->
  exists p',
    Public.importOnload (Some v) mergeOption listing p = (Normal tt, p') /\
    storage p' =
      Stored (if mergeOption then mergeNotes current (objects v) else objects v) /\
    indicator p' = "Notes Imported!" /\
    alerts p' = alerts p ++ ["Successfully imported " +:+ pretty (Public.arrayLength v)
                             +:+ " notes!"].
Proof.
  intros Hload Hvalid. unfold Public.importOnload, tryCatch. rewrite Hvalid. cbn [negb].
  unfold bind at 1.
  assert (Hfinal :
    (if mergeOption
     then bind Public.storedNotes
            (fun currentNotes => ret (mergeNotes currentNotes (objects v)))
     else ret (objects v)) p =
    (Normal (if mergeOption then mergeNotes current (objects v) else objects v), p)).
  { destruct mergeOption; [|reflexivity].
    destruct Hload as [Hload|[=]]. unfold bind. now rewrite Hload. }
  rewrite Hfinal.
  unfold Public.rerender, Public.fetchNotes, tryCatch, bind.
  destruct listing as [|status [notes|]]; simpl; [eauto| |];
    destruct (Public.ok status); simpl; eauto.
Qed.

End HealthFacts.

(** X4. Every operation of the local client keeps the store healthy: once
    the blob is readable and every stored note is an object with an [id] and
    a [text], it stays so through adding, updating, pinning, deleting,
    confirming a delete, exporting and importing, whatever their arguments
    are. *)
Theorem local_store_stays_healthy :
  forall p : Page,
    healthy p ->
    (forall (value dueDate : string) (nowMs : Z) (nowIso : string),
        healthy (Local.addNote value dueDate nowMs nowIso p).2) /\
    (forall (noteId : Value) (updates : Obj),
        healthy (Local.updateNoteContent noteId updates p).2) /\
    (forall noteId : Value, healthy (Local.togglePinNote noteId p).2) /\
    (forall noteId : Value, healthy (Local.deleteNote noteId p).2) /\
    healthy (Local.confirmDeleteClick p).2 /\
    healthy (Local.exportNotes p).2 /\
    (forall (parsed : option Value) (mergeOption : bool),
        healthy (Local.importOnload parsed mergeOption p).2).
Proof.
  intros p Hp. destruct (healthy_loadNotes p Hp) as (notes & Hload & Hwf).
  assert (Hupdate : forall noteId updates,
             healthy (Local.updateNoteContent noteId updates p).2).
  { intros noteId updates.
    destruct (findIndex (fun n : Obj => strictEq (n !! "id") (Some noteId)) notes)
      as [i|] eqn:Hfind.
    - rewrite (Local_update_storage p notes noteId updates i Hload Hfind).
      unfold healthy. simpl. now apply wellFormed_update.
    - unfold Local.updateNoteContent, bind. now rewrite Hload, Hfind. }
  assert (Hdelete : forall noteId, healthy (Local.deleteNote noteId p).2).
  { intros noteId. rewrite (Local_delete_filters p notes noteId Hload).
    unfold healthy. simpl. now apply wellFormed_filter. }
  split; [|split; [exact Hupdate|split; [|split; [exact Hdelete|split; [|split]]]]].
  - intros value dueDate nowMs nowIso. unfold Local.addNote.
    destruct (String.eqb (trim value) EmptyString); [exact Hp|].
    unfold bind at 1. rewrite Hload.
    rewrite (saveNotes_rerender (notes ++ [Local.newNote (trim value) dueDate nowMs nowIso]) p).
    unfold healthy. simpl. apply Forall_app. split; [exact Hwf|].
    constructor; [|constructor]. unfold Local.newNote.
    split; eexists; now simplify_map_eq.
  - intros noteId. unfold Local.togglePinNote. unfold bind at 1. rewrite Hload.
    destruct (findIndex _ notes); [apply Hupdate|exact Hp].
  - unfold Local.confirmDeleteClick. destruct (noteIdToDelete p) as [noteId|]; [|exact Hp].
    destruct (truthy (Some noteId)); [apply Hdelete|exact Hp].
  - unfold Local.exportNotes, bind. rewrite Hload.
    destruct (length notes =? 0)%nat; exact Hp.
  - intros parsed mergeOption. destruct parsed as [v|].
    + destruct (validImport v) eqn:Hv.
      * rewrite (Local_import_outcome p notes v mergeOption Hload Hv). cbv zeta.
        apply validImport_validSnapshot in Hv as (l & [= ->] & Hl).
        assert (wellFormed (if mergeOption then mergeNotes notes (objects (VArr l))
                            else objects (VArr l))).
        { destruct mergeOption; [apply wellFormed_mergeNotes; [exact Hwf|]|];
            now apply wellFormed_objects. }
        unfold healthy. now destruct (forallb hasText _).
      * unfold Local.importOnload, tryCatch. rewrite Hv. exact Hp.
    + exact Hp.
Qed.

Lemma local_store_stays_healthy_witness :
  healthy (Local.addNote "buy milk" "" 1700000000000 "2023-11-14T22:13:20.000Z"
                         Sample.page5).2 /\
  healthy (Local.importOnload (Some (VArr Sample.snapshot56)) true Sample.page5).2.
Proof.
  assert (Hp : healthy Sample.page5).
  { repeat constructor; vm_compute; eauto. }
  destruct (local_store_stays_healthy Sample.page5 Hp) as (Hadd & _ & _ & _ & _ & _ & Himp).
  split; [apply Hadd|apply Himp].
Defined.

Section RoundTripFacts.

Lemma bind_throw {A B : Type} (m : M A) (k : A -> M B) (e : Error) (p p' : Page) :
  m p = (Throw e, p') -> bind m k p = (Throw e, p').
Proof. intros H. unfold bind. now rewrite H. Qed.

Lemma strictEq_primitiveId (note : Obj) :
  primitiveId note -> strictEq (note !! "id") (note !! "id") = true.
Proof.
  unfold primitiveId. destruct (note !! "id") as [[| b | n | s | |]|]; simpl; try tauto;
    intros _.
  - now destruct b.
  - apply Z.eqb_refl.
  - apply String.eqb_refl.
Qed.

(** Merging a list into itself adds nothing when ids compare by content. *)
Lemma mergeNotes_self (notes : list Obj) :
  Forall primitiveId notes -> mergeNotes notes notes = notes.
Proof.
  intros Hprim. unfold mergeNotes.
  assert (Hnone : forall l : list Obj,
             (forall n, In n l -> In n notes) ->
             List.filter (fun importedNote : Obj =>
                            negb (setHas (map (fun note : Obj => note !! "id") notes)
                                         (importedNote !! "id"))) l = []).
  { induction l as [|n l IH]; intros Hsub; [reflexivity|]. simpl.
    assert (Hn : In n notes) by (apply Hsub; simpl; auto).
    assert (Hhas : setHas (map (fun note : Obj => note !! "id") notes) (n !! "id") = true).
    { unfold setHas. apply existsb_exists. exists (n !! "id"). split.
      - apply in_map_iff. now exists n.
      - apply strictEq_primitiveId. rewrite Forall_forall in Hprim.
        now apply Hprim, list_elem_of_In. }
    rewrite Hhas. simpl. apply IH. intros; apply Hsub; simpl; auto. }
  rewrite Hnone by auto. apply app_nil_r.
Qed.

End RoundTripFacts.

(** X5. Export and import are inverse to each other. From a store that holds
    at least one note, all of them well-formed, [exportNotes] downloads a
    file and leaves the store alone; that file passes the import test;
    importing it in replace mode, into any readable store and in either
    client, stores exactly the exported notes; and importing it in merge mode
    into the store it came from changes nothing, provided the ids are
    strings, numbers, booleans or null. *)
Theorem export_then_import_round_trip :
  forall (p : Page) (notes : list Obj),
    Local.loadNotes p = (Normal notes, p) ->
    wellFormed notes ->
    notes <> [] ->
    exists file : Value,
      Local.exportNotes p =
        (Normal (Some file),
         mkPage (storage p) "Notes Exported!" (alerts p) (console p) (noteIdToDelete p)) /\
      validSnapshot (Some file) /\
      (forall (q : Page) (current : list Obj),
          Local.loadNotes q = (Normal current, q) ->
          storage (Local.importOnload (Some file) false q).2 = Stored notes) /\
      (forall (q : Page) (listing : Public.Fetched (list Public.Note)),
          storage (Public.importOnload (Some file) false listing q).2 = Stored notes) /\
      (Forall primitiveId notes ->
       storage (Local.importOnload (Some file) true p).2 = Stored notes).
Proof.
  intros p notes Hload Hwf Hne. exists (VArr (VObj <$> notes)).
  assert (Hsnap : validSnapshot (Some (VArr (VObj <$> notes)))).
  { eexists. split; [reflexivity|]. now apply wellFormed_noteObject. }
  pose proof (proj2 (validImport_validSnapshot _) Hsnap) as Hv.
  split; [|split; [exact Hsnap|split; [|split]]].
  - unfold Local.exportNotes, bind. rewrite Hload.
    destruct notes as [|n notes]; [contradiction|reflexivity].
  - intros q current Hq.
    rewrite (Local_import_outcome q current _ false Hq Hv). cbv zeta.
    rewrite objects_fmap. now destruct (forallb hasText notes).
  - intros q listing.
    destruct (Public_import_outcome q _ false listing [] (or_intror eq_refl) Hv)
      as (q' & -> & Hst & _).
    simpl. now rewrite Hst, objects_fmap.
  - intros Hprim.
    rewrite (Local_import_outcome p notes _ true Hload Hv). cbv zeta.
    rewrite objects_fmap, mergeNotes_self by exact Hprim.
    now destruct (forallb hasText notes).
Qed.

Lemma export_then_import_round_trip_witness :
  exists file : Value,
    Local.exportNotes Sample.page5 =
      (Normal (Some file),
       mkPage (storage Sample.page5) "Notes Exported!" (alerts Sample.page5)
              (console Sample.page5) (noteIdToDelete Sample.page5)) /\
    validSnapshot (Some file) /\
    (forall (q : Page) (current : list Obj),
        Local.loadNotes q = (Normal current, q) ->
        storage (Local.importOnload (Some file) false q).2 = Stored [Sample.stored5]) /\
    (forall (q : Page) (listing : Public.Fetched (list Public.Note)),
        storage (Public.importOnload (Some file) false listing q).2 =
          Stored [Sample.stored5]) /\
    (Forall primitiveId [Sample.stored5] ->
     storage (Local.importOnload (Some file) true Sample.page5).2 = Stored [Sample.stored5]).
Proof.
  apply (export_then_import_round_trip Sample.page5 [Sample.stored5]).
  - reflexivity.
  - repeat constructor; vm_compute; eauto.
  - discriminate.
Defined.

(** X6. Replace-mode import of a valid snapshot stores exactly the
    snapshot's notes. The server-backed client does so whatever the blob
    held, a damaged one included; the local client reads the blob before it
    asks for the mode, so with a damaged blob it refuses the import in either
    mode and the blob stays damaged, as does merge mode in the server-backed
    client. *)
Theorem replace_import_stores_the_snapshot :
  forall (p : Page) (snapshot : list Value) (listing : Public.Fetched (list Public.Note)),
    validSnapshot (Some (VArr snapshot)) ->
    exists final : list Obj,
      VObj <$> final = snapshot /\
      storage (Public.importOnload (Some (VArr snapshot)) false listing p).2 =
        Stored final /\
      (storage p <> Unparsable ->
       storage (Local.importOnload (Some (VArr snapshot)) false p).2 = Stored final) /\
      (storage p = Unparsable ->
       (forall mergeOption : bool,
           rejected p (Local.importOnload (Some (VArr snapshot)) mergeOption p)) /\
       rejected p (Public.importOnload (Some (VArr snapshot)) true listing p)).
Proof.
  intros p snapshot listing Hsnap.
  pose proof (proj2 (validImport_validSnapshot _) Hsnap) as Hv.
  destruct Hsnap as (l & [= <-] & Hl).
  exists (objects (VArr snapshot)). split; [now apply objects_valid|]. split; [|split].
  - destruct (Public_import_outcome p _ false listing [] (or_intror eq_refl) Hv)
      as (p' & -> & Hst & _). exact Hst.
  - intros Hreadable.
    assert (Hload : exists current, Local.loadNotes p = (Normal current, p)).
    { unfold Local.loadNotes. destruct (storage p); [eauto|contradiction|eauto]. }
    destruct Hload as [current Hload].
    rewrite (Local_import_outcome p current _ false Hload Hv). cbv zeta.
    now destruct (forallb hasText _).
  - intros Hcorrupt. unfold rejected.
    assert (Hthrow : Local.loadNotes p = (Throw SyntaxError, p)).
    { unfold Local.loadNotes. now rewrite Hcorrupt. }
    split.
    + intros mergeOption. unfold Local.importOnload, tryCatch. rewrite Hv. cbn [negb].
      rewrite (bind_throw _ _ _ _ _ Hthrow). simpl. repeat split; eauto.
    + unfold Public.importOnload, tryCatch. rewrite Hv. cbn [negb].
      rewrite (bind_throw _ _ _ _ _ (bind_throw _ _ _ _ _ Hthrow)). simpl.
      repeat split; eauto.
Qed.

Lemma replace_import_stores_the_snapshot_witness :
  exists final : list Obj,
    VObj <$> final = Sample.snapshot56 /\
    storage (Public.importOnload (Some (VArr Sample.snapshot56)) false Public.Rejected
                                 Sample.corruptPage).2 = Stored final /\
    (storage Sample.corruptPage <> Unparsable ->
     storage (Local.importOnload (Some (VArr Sample.snapshot56)) false
                                 Sample.corruptPage).2 = Stored final) /\
    (storage Sample.corruptPage = Unparsable ->
     (forall mergeOption : bool,
         rejected Sample.corruptPage
           (Local.importOnload (Some (VArr Sample.snapshot56)) mergeOption
                               Sample.corruptPage)) /\
     rejected Sample.corruptPage
       (Public.importOnload (Some (VArr Sample.snapshot56)) true Public.Rejected
                            Sample.corruptPage)).
Proof.
  apply (replace_import_stores_the_snapshot Sample.corruptPage Sample.snapshot56
           Public.Rejected).
  exists Sample.snapshot56. split; [reflexivity|].
  repeat constructor; eexists; (split; [reflexivity|]); split; vm_compute; eauto.
Defined.



(** X8. The delete dialog. A click on its delete button while no note is
    pending, or while the pending id is falsy (0, the empty string, null,
    false), does nothing, so a note with such an id cannot be deleted through
    the dialog; with a truthy pending id the click does what [deleteNote] of
    that id does, clears the pending id, and a second click then does
    nothing more. *)
Theorem confirm_click_deletes_once :
  forall p : Page,
    (truthy (noteIdToDelete p) = false -> Local.confirmDeleteClick p = (Normal tt, p)) /\
    (forall noteId : Value,
        noteIdToDelete p = Some noteId ->
        truthy (Some noteId) = true ->
        Local.confirmDeleteClick p = Local.deleteNote noteId p /\
        (storage p <> Unparsable ->
         noteIdToDelete (Local.confirmDeleteClick p).2 = None /\
         Local.confirmDeleteClick (Local.confirmDeleteClick p).2 =
           (Normal tt, (Local.confirmDeleteClick p).2))).
Proof.
  intros p. split.
  - intros H. unfold Local.confirmDeleteClick.
    destruct (noteIdToDelete p) as [noteId|]; [|reflexivity]. now rewrite H.
  - intros noteId Hpending Htruthy.
    assert (Hclick : Local.confirmDeleteClick p = Local.deleteNote noteId p).
    { unfold Local.confirmDeleteClick. now rewrite Hpending, Htruthy. }
    split; [exact Hclick|]. intros Hreadable. rewrite Hclick.
    assert (Hload : exists notes, Local.loadNotes p = (Normal notes, p)).
    { unfold Local.loadNotes. destruct (storage p); [eauto|contradiction|eauto]. }
    destruct Hload as [notes Hload].
    rewrite (Local_delete_filters p notes noteId Hload). cbv zeta. simpl.
    split; reflexivity.
Qed.

Lemma confirm_click_deletes_once_witness :
  Local.confirmDeleteClick Sample.page5 = (Normal tt, Sample.page5) /\
  Local.confirmDeleteClick Sample.pending5 = Local.deleteNote (VStr "5") Sample.pending5.
Proof.
  split.
  - apply (proj1 (confirm_click_deletes_once Sample.page5)). reflexivity.
  - exact (proj1 (proj2 (confirm_click_deletes_once Sample.pending5) (VStr "5")
                     eq_refl eq_refl)).
Defined.

(** * The rest of the server *)

Section ServerFacts.

Lemma filter_id_nil (noteId : Z) (db : list Server.Row) :
  List.filter (fun r => Server.id r =? noteId) db = [] <->
  ~ In noteId (map Server.id db).
Proof.
  split; [|apply filter_id_none].
  intros H Hin. apply in_map_iff in Hin as (r & Hid & Hr).
  assert (Hf : In r (List.filter (fun r => Server.id r =? noteId) db)).
  { apply filter_In. split; [exact Hr|]. now apply Z.eqb_eq. }
  rewrite H in Hf. destruct Hf.
Qed.


(** The table after a PUT, whatever the answer. *)
Lemma putNote_table (noteId : Z) (req : Server.PutBody) (db : list Server.Row) :
  (Server.putNote noteId req db).2 =
    match Server.body_text req with
    | Some t =>
        map (fun r => if Server.id r =? noteId
                      then Server.setRow t (Server.body_pinned req) r else r) db
    | None => db
    end.
Proof.
  unfold Server.putNote, Server.sqlUpdate.
  destruct (List.filter _ db) as [|hit hits] eqn:Hf.
  - simpl. destruct (Server.body_text req) as [t|]; [|reflexivity].
    apply filter_id_nil in Hf. symmetry. rewrite <- (map_id db) at 2.
    apply map_ext_in. intros r Hr.
    destruct (Z.eqb_spec (Server.id r) noteId) as [E|_]; [|reflexivity].
    exfalso. apply Hf. apply in_map_iff. now exists r.
  - now destruct (Server.body_text req).
Qed.

Lemma putNote_status (noteId : Z) (req : Server.PutBody) (db : list Server.Row) :
  Server.status (Server.putNote noteId req db).1 =
    match List.filter (fun r => Server.id r =? noteId) db, Server.body_text req with
    | [], _ => 404
    | _ :: _, None => 500
    | _ :: _, Some _ => 200
    end.
Proof.
  unfold Server.putNote, Server.sqlUpdate.
  destruct (List.filter _ db); [reflexivity|]. now destruct (Server.body_text req).
Qed.


Lemma putNote_ids (noteId : Z) (req : Server.PutBody) (db : list Server.Row) :
  map Server.id (Server.putNote noteId req db).2 = map Server.id db.
Proof.
  rewrite putNote_table. destruct (Server.body_text req) as [t|]; [|reflexivity].
  rewrite map_map. apply map_ext. intros r. now destruct (Server.id r =? noteId).
Qed.



End ServerFacts.



(** X10. [PUT /api/notes/:id] changes two columns of the rows with that id
    and nothing else: the table keeps its rows in place with their id,
    creation time, due date and reminder time; a row with another id is
    untouched; and when the body carries a text, a row with the id gets that
    text and gets for [pinned] what the body carries, NULL when it carries
    none. *)
Theorem put_changes_text_and_pinned_only :
  forall (db : list Server.Row) (noteId : Z) (req : Server.PutBody),
    map Server.id (Server.putNote noteId req db).2 = map Server.id db /\
    map Server.created_at (Server.putNote noteId req db).2 = map Server.created_at db /\
    map Server.due_date (Server.putNote noteId req db).2 = map Server.due_date db /\
    map Server.reminder_time (Server.putNote noteId req db).2 =
      map Server.reminder_time db /\
    (forall (i : nat) (r : Server.Row),
        db !! i = Some r -> Server.id r <> noteId ->
        (Server.putNote noteId req db).2 !! i = Some r) /\
    (forall (t : string) (i : nat) (r : Server.Row),
        Server.body_text req = Some t ->
        db !! i = Some r -> Server.id r = noteId ->
        (Server.putNote noteId req db).2 !! i =
          Some (Server.mkRow (Server.id r) t (Server.body_pinned req)
                             (Server.created_at r) (Server.due_date r)
                             (Server.reminder_time r))).
Proof.
  intros db noteId req. rewrite putNote_table.
  destruct (Server.body_text req) as [t|].
  - repeat split.
    + rewrite map_map. apply map_ext. intros r. now destruct (Server.id r =? noteId).
    + rewrite map_map. apply map_ext. intros r. now destruct (Server.id r =? noteId).
    + rewrite map_map. apply map_ext. intros r. now destruct (Server.id r =? noteId).
    + rewrite map_map. apply map_ext. intros r. now destruct (Server.id r =? noteId).
    + intros i r Hi Hne. change (map ?f db) with (f <$> db).
      rewrite list_lookup_fmap, Hi. simpl.
      destruct (Z.eqb_spec (Server.id r) noteId); [contradiction|reflexivity].
    + intros t' i r [= <-] Hi Heq. change (map ?f db) with (f <$> db).
      rewrite list_lookup_fmap, Hi. simpl. now rewrite (proj2 (Z.eqb_eq _ _) Heq).
  - repeat split; auto. intros t' i r [=].
Qed.

Lemma put_changes_text_and_pinned_only_witness :
  (Server.putNote 1 (Server.mkPutBody (Some "x") None) [Sample.row1]).2 !! 0%nat =
    Some (Server.mkRow 1 "x" None 1000 None None).
Proof.
  destruct (put_changes_text_and_pinned_only [Sample.row1] 1
              (Server.mkPutBody (Some "x") None)) as (_ & _ & _ & _ & _ & H).
  apply (H "x"%string 0%nat Sample.row1); reflexivity.
Defined.

(** X11. Every handler keeps the ids of the table pairwise distinct: the
    table after a PUT, a DELETE or a POST has no id twice when the table
    before had none twice. *)
Theorem server_keeps_ids_unique :
  forall db : list Server.Row,
    NoDup (map Server.id db) ->
    (forall (noteId : Z) (req : Server.PutBody),
        NoDup (map Server.id (Server.putNote noteId req db).2)) /\
    (forall noteId : Z, NoDup (map Server.id (Server.deleteNote noteId db).2)) /\
    (forall (req : Server.PostBody) (serial now : Z),
        NoDup (map Server.id (Server.postNote req serial now db).2)).
Proof.
  intros db Hdb. split; [|split].
  - intros noteId req. now rewrite putNote_ids.
  - intros noteId. rewrite Server_deleteNote_table. unfold Server.sqlDelete. simpl.
    induction db as [|r db IH]; [constructor|]. simpl in *.
    apply NoDup_cons in Hdb as [Hr Hdb].
    destruct (negb (Server.id r =? noteId)); [|now apply IH].
    simpl. apply NoDup_cons. split; [|now apply IH].
    intros Hin%list_elem_of_In. apply Hr, list_elem_of_In.
    apply in_map_iff in Hin as (r' & Hid & [Hr' _]%filter_In).
    apply in_map_iff. now exists r'.
  - intros req serial stamp. unfold Server.postNote, Server.sqlInsert.
    destruct (Server.new_text req) as [t|]; [|exact Hdb].
    destruct (existsb (fun r => Server.id r =? serial) db) eqn:Hex; [exact Hdb|].
    simpl. rewrite map_app. simpl. apply NoDup_app. split; [exact Hdb|]. split.
    + intros x Hx%list_elem_of_In [<-|[]]%list_elem_of_In.
      apply in_map_iff in Hx as (r & Hid & Hr).
      assert (existsb (fun r => Server.id r =? serial) db = true); [|congruence].
      apply existsb_exists. exists r. split; [exact Hr|now apply Z.eqb_eq].
    + apply NoDup_singleton.
Qed.

Lemma server_keeps_ids_unique_witness :
  NoDup (map Server.id (Server.putNote 1 (Server.mkPutBody (Some "x") None)
                                       [Sample.row1]).2) /\
  NoDup (map Server.id (Server.postNote (Server.mkPostBody (Some "new") None None)
                                        2 2000 [Sample.row1]).2).
Proof.
  assert (Hdb : NoDup (map Server.id [Sample.row1])) by (apply NoDup_singleton).
  destruct (server_keeps_ids_unique [Sample.row1] Hdb) as (Hput & _ & Hpost).
  split; [apply Hput|apply Hpost].
Defined.

(** X12. [GET /api/notes] answers 200 with every row of the table, each
    once, the newest first, and leaves the table as it is. *)
Theorem get_lists_every_row_newest_first :
  forall db : list Server.Row,
    exists rows : list Server.Row,
      Server.getNotes db = (Server.mkReply 200 (Server.Rows rows), db) /\
      Permutation rows db /\
      StronglySorted (fun a b => Server.created_at b <= Server.created_at a) rows.
Proof.
  intros db. exists (Server.selectAll db). split; [reflexivity|]. split.
  - apply sort_Permutation.
  - eapply StronglySorted_weaken.
    + apply (sort_sorted (fun a b : Server.Row => Server.created_at b - Server.created_at a));
        intros; lia.
    + intros x y _ _ H. unfold inOrder in H. lia.
Qed.



(** * The rest of the server-backed client *)

Section PublicFacts.



End PublicFacts.



(** X15. Through the API a pin can never be toggled and an edit of the text
    unpins. For every table that has the id: the body [togglePinNote] sends
    carries no text, so the server answers 500, changes nothing, and the
    client shows the failure alert; the body an edit of the text sends
    carries no [pinned], so the server answers 200 and every row with the id
    then has the new text and NULL for [pinned]. *)
Theorem pin_and_text_through_the_api :
  forall (db : list Server.Row) (noteId : Z) (currentPinnedStatus : bool)
         (newText : string) (listing : Public.Fetched (list Public.Note)) (p : Page),
    In noteId (map Server.id db) ->
    Server.putNote noteId (Public.pinUpdate currentPinnedStatus) db =
      (Server.mkReply 500 (Server.ErrorBody "Internal server error"), db) /\
    alerts (Public.togglePinNote
              (Public.answer (Server.putNote noteId (Public.pinUpdate currentPinnedStatus) db).1)
              listing p).2 =
      alerts p ++ ["Failed to update note. Please try again."] /\
    Server.status (Server.putNote noteId (Public.textUpdate newText) db).1 = 200 /\
    (forall r : Server.Row,
        In r (Server.putNote noteId (Public.textUpdate newText) db).2 ->
        Server.id r = noteId ->
        Server.text r = newText /\ Server.pinned r = None).
Proof.
  intros db noteId current newText listing p Hin.
  assert (Hf : exists hit hits,
             List.filter (fun r => Server.id r =? noteId) db = hit :: hits).
  { destruct (List.filter _ db) as [|hit hits] eqn:E; [|eauto].
    now apply filter_id_nil in E. }
  destruct Hf as (hit & hits & Hf).
  assert (Hpin : Server.putNote noteId (Public.pinUpdate current) db =
                 (Server.mkReply 500 (Server.ErrorBody "Internal server error"), db)).
  { unfold Server.putNote, Server.sqlUpdate. simpl. now rewrite Hf. }
  split; [exact Hpin|]. split; [now rewrite Hpin|]. split.
  - rewrite putNote_status, Hf. reflexivity.
  - intros r Hr Hid. rewrite putNote_table in Hr. simpl in Hr.
    apply in_map_iff in Hr as (r0 & Hr0 & _).
    destruct (Z.eqb_spec (Server.id r0) noteId) as [E|E].
    + subst r. now split.
    + subst r. contradiction.
Qed.

Lemma pin_and_text_through_the_api_witness :
  Server.putNote 1 (Public.pinUpdate true) [Sample.row1] =
    (Server.mkReply 500 (Server.ErrorBody "Internal server error"), [Sample.row1]) /\
  alerts (Public.togglePinNote
            (Public.answer (Server.putNote 1 (Public.pinUpdate true) [Sample.row1]).1)
            Public.Rejected Sample.page5).2 =
    alerts Sample.page5 ++ ["Failed to update note. Please try again."] /\
  Server.status (Server.putNote 1 (Public.textUpdate "x") [Sample.row1]).1 = 200 /\
  (forall r : Server.Row,
      In r (Server.putNote 1 (Public.textUpdate "x") [Sample.row1]).2 ->
      Server.id r = 1 ->
      Server.text r = "x"%string /\ Server.pinned r = None).
Proof.
  apply (pin_and_text_through_the_api [Sample.row1] 1 true "x" Public.Rejected Sample.page5).
  simpl. lia.
Defined.



(** * The view again *)

Section IdempotenceFacts.
Context {A : Type} (cmp : A -> A -> Z).



End IdempotenceFacts.


(** * Deleting in the local client *)

(** X18. The local [deleteNote(id)] removes every stored note with that id,
    not only the first, and keeps every other note; deleting the same id
    again leaves the stored list as it is, and an update of the deleted id
    afterwards does nothing. *)
Theorem local_delete_removes_every_match :
  forall (p : Page) (notes : list Obj) (noteId : Value) (updates : Obj),
    Local.loadNotes p = (Normal notes, p) ->
    exists kept : list Obj,
      storage (Local.deleteNote noteId p).2 = Stored kept /\
      (forall note, In note kept <->
                    In note notes /\ strictEq (note !! "id") (Some noteId) = false) /\
      storage (Local.deleteNote noteId (Local.deleteNote noteId p).2).2 = Stored kept /\
      Local.updateNoteContent noteId updates (Local.deleteNote noteId p).2 =
        (Normal tt, (Local.deleteNote noteId p).2).
Proof.
  intros p notes noteId updates Hload.
  set (kept := List.filter
                 (fun note : Obj => negb (strictEq (note !! "id") (Some noteId))) notes).
  assert (Hkept : forall note, In note kept <->
                    In note notes /\ strictEq (note !! "id") (Some noteId) = false).
  { intros note. unfold kept. rewrite filter_In, negb_true_iff. tauto. }
  pose proof (Local_delete_filters p notes noteId Hload) as Hdel.
  cbv zeta in Hdel. fold kept in Hdel.
  exists kept. rewrite Hdel. simpl.
  set (p1 := mkPage (Stored kept) "Saved!" (alerts p) (console p) None).
  assert (Hload1 : Local.loadNotes p1 = (Normal kept, p1)) by reflexivity.
  split; [reflexivity|]. split; [exact Hkept|]. split.
  - rewrite (Local_delete_filters p1 kept noteId Hload1). cbv zeta. simpl.
    f_equal. apply filter_all_In. intros note Hnote%Hkept.
    apply negb_true_iff. tauto.
  - unfold Local.updateNoteContent, bind. rewrite Hload1.
    rewrite findIndex_None; [reflexivity|]. intros note Hnote%Hkept. tauto.
Qed.

Lemma local_delete_removes_every_match_witness :
  exists kept : list Obj,
    storage (Local.deleteNote (VStr "5") Sample.page5).2 = Stored kept /\
    (forall note, In note kept <->
                  In note [Sample.stored5] /\
                  strictEq (note !! "id") (Some (VStr "5")) = false) /\
    storage (Local.deleteNote (VStr "5") (Local.deleteNote (VStr "5") Sample.page5).2).2 =
      Stored kept /\
    Local.updateNoteContent (VStr "5") {[ "text" := VStr "x" ]}
                            (Local.deleteNote (VStr "5") Sample.page5).2 =
      (Normal tt, (Local.deleteNote (VStr "5") Sample.page5).2).
Proof.
  apply (local_delete_removes_every_match Sample.page5 [Sample.stored5] (VStr "5")
           {[ "text" := VStr "x" ]}).
  reflexivity.
Defined.
